(** * Banana World canvas editor: matting, sprite registry, hit testing and
    generation orchestration of [App.tsx], embedded for verification.

    Conventions of the embedding.
    - The pixel buffer of an [ImageData] is a flat [list Z] (one entry per
      channel, four per pixel), read with stdpp's lookup: an index past the
      end reads [None] (JavaScript [undefined]) and a write past the end is
      dropped, as for a typed array.
    - Pixel coordinates and image sizes are natural numbers; the running
      bounding box is over [Z] because it starts at [-1].
    - Scene coordinates (sprite position, size, scale) are JavaScript
      numbers; they are modelled as exact rationals [Qc].  Rounding of
      binary64 arithmetic is not part of this model; the concrete numbers of
      the text-prompt scenario are re-evaluated in binary64 at the end of the
      definitions.
    - An optional field [f?: T] is an [option T]; truthiness tests are
      written out.
    - A React state update [setImages(prev => ...)] is a function on the
      registry list; an asynchronous handler is split at its suspension
      points, the outcome of each awaited external call being an input.
    - A control that JSX renders under a condition can fire only while the
      condition holds; its event leaves the state as it is otherwise. *)

From stdpp Require Import base numbers list strings.
From Stdlib Require Import QArith Qcanon Qround Floats.

Local Open Scope Z_scope.

(** ** Constants (App.tsx, lines 122-130) *)

Definition IMAGE_WIDTH : Z := 375.
Definition SCALE_OPTIONS : list Qc := [Q2Qc 1; Q2Qc (12 # 10); Q2Qc (15 # 10); Q2Qc 2].
Definition COLOR_DISTANCE_THRESHOLD : Z := 20.

(** ** Data model *)

Module ContentBounds.
Record t (N : Type) : Type := mk { x : N; y : N; width : N; height : N }.
Arguments mk {N} _ _ _ _.
Arguments x {N} _.
Arguments y {N} _.
Arguments width {N} _.
Arguments height {N} _.

Definition map {A B : Type} (f : A → B) (b : t A) : t B :=
  mk (f (x b)) (f (y b)) (f (width b)) (f (height b)).
End ContentBounds.

(** A decoded raster image: its size, its RGBA bytes in row-major order, and
    whether a canvas holding it may be read back ([getImageData] throws on a
    cross-origin image). *)
Module HTMLImageElement.
Record t : Type := mk
  { width : nat; height : nat; pixels : list Z; origin_clean : bool }.
End HTMLImageElement.

Record ImageProcessingResult : Type := mkResult
  { transparentImage : HTMLImageElement.t;
    contentBounds : ContentBounds.t Z }.

(** ** Matting engine: [processImageForTransparency] (lines 184-257) *)

(** [ctx.drawImage(img, 0, 0)] on a fresh canvas of the image's size followed
    by [ctx.getImageData(0, 0, w, h)]: the buffer has exactly [4*w*h]
    entries (a fresh canvas is transparent black); the call throws for an
    empty rectangle and for a tainted canvas. *)
Definition getImageData (img : HTMLImageElement.t) : option (list Z) :=
  let w := HTMLImageElement.width img in
  let h := HTMLImageElement.height img in
  if HTMLImageElement.origin_clean img && bool_decide (0 < w)%nat
     && bool_decide (0 < h)%nat
  then Some (resize (4 * w * h) 0 (HTMLImageElement.pixels img))
  else None.

(** [(r - bgR) ** 2 + (g - bgG) ** 2 + (b - bgB) ** 2]; [None] is NaN, which
    arises when one of the operands is [undefined]. *)
Definition distanceSquared (bgR bgG bgB : option Z) (data : list Z) (i : nat)
  : option Z :=
  r ← data !! i;
  g ← data !! (i + 1)%nat;
  b ← data !! (i + 2)%nat;
  bR ← bgR; bG ← bgG; bB ← bgB;
  Some ((r - bR) ^ 2 + (g - bG) ^ 2 + (b - bB) ^ 2).

(** [a < b] and [a > 0] on numbers that may be NaN / [undefined]. *)
Definition num_lt (a : option Z) (b : Z) : bool :=
  match a with Some v => bool_decide (v < b) | None => false end.
Definition num_pos (a : option Z) : bool :=
  match a with Some v => bool_decide (0 < v) | None => false end.

(** [distanceSquared < colorDistanceThresholdSquared] for the pixel that
    starts at index [i]. *)
Definition near (bgR bgG bgB : option Z) (data : list Z) (i : nat) : bool :=
  num_lt (distanceSquared bgR bgG bgB data i)
         (COLOR_DISTANCE_THRESHOLD * COLOR_DISTANCE_THRESHOLD).

(** Body of the first loop at index [i]. *)
Definition matte_pixel (bgR bgG bgB : option Z) (data : list Z) (i : nat)
  : list Z :=
  if near bgR bgG bgB data i then <[(i + 3)%nat := 0]> data else data.

(** [for (let i = 0; i < data.length; i += 4)]: [i = 4 * k] for
    [k = 0, 1, ...] while [4 * k < data.length]. *)
Definition alpha_pass (data : list Z) : list Z :=
  let bgR := data !! 0%nat in
  let bgG := data !! 1%nat in
  let bgB := data !! 2%nat in
  foldl (λ d k, matte_pixel bgR bgG bgB d (4 * k)%nat) data
        (seq 0 ((length data + 3) / 4)%nat).

Record Box : Type := mkBox { minX : Z; minY : Z; maxX : Z; maxY : Z }.

(** [alpha > 0] for [alpha = data[(y * canvas.width + x) * 4 + 3]]. *)
Definition opaque (w : nat) (data : list Z) (x y : nat) : bool :=
  num_pos (data !! ((y * w + x) * 4 + 3)%nat).

(** Body of the inner loop of the bounding-box sweep. *)
Definition bbox_step (w : nat) (data : list Z) (y x : nat) (b : Box) : Box :=
  if opaque w data x y then
    mkBox (if bool_decide (Z.of_nat x < minX b) then Z.of_nat x else minX b)
          (if bool_decide (Z.of_nat y < minY b) then Z.of_nat y else minY b)
          (if bool_decide (Z.of_nat x > maxX b) then Z.of_nat x else maxX b)
          (if bool_decide (Z.of_nat y > maxY b) then Z.of_nat y else maxY b)
  else b.

Definition bbox_pass (w h : nat) (data : list Z) : Box :=
  foldl (λ b y, foldl (λ b x, bbox_step w data y x b) b (seq 0 w))
        (mkBox (Z.of_nat w) (Z.of_nat h) (-1) (-1))
        (seq 0 h).

Definition bounds_of_box (w h : nat) (b : Box) : ContentBounds.t Z :=
  if bool_decide (maxX b >= minX b) && bool_decide (maxY b >= minY b)
  then ContentBounds.mk (minX b) (minY b)
         (maxX b - minX b + 1) (maxY b - minY b + 1)
  else ContentBounds.mk 0 0 (Z.of_nat w) (Z.of_nat h).

Definition full_rectangle (img : HTMLImageElement.t) : ContentBounds.t Z :=
  ContentBounds.mk 0 0 (Z.of_nat (HTMLImageElement.width img))
                       (Z.of_nat (HTMLImageElement.height img)).

(** What [img.onload] / [img.onerror] delivers, and whether the canvas
    yields a 2d context. *)
Inductive ImageLoad : Type :=
| LoadError
| Decoded (img : HTMLImageElement.t) (ctx2d : bool).

(** The promise of [processImageForTransparency]: [None] is a rejection
    ([img.onerror] or no 2d context), [Some r] the resolved value.  The
    [catch] branch resolves with the original image and the full
    rectangle. *)
Definition processImageForTransparency (l : ImageLoad)
  : option ImageProcessingResult :=
  match l with
  | LoadError => None
  | Decoded img false => None
  | Decoded img true =>
      let w := HTMLImageElement.width img in
      let h := HTMLImageElement.height img in
      match getImageData img with
      | Some data0 =>
          let data := alpha_pass data0 in
          let b := bbox_pass w h data in
          Some (mkResult (HTMLImageElement.mk w h data true)
                         (bounds_of_box w h b))
      | None => Some (mkResult img (full_rectangle img))
      end
  end.

(** The pixels visited by the sweep, in order. *)
Definition pixel_coords (w h : nat) : list (nat * nat) :=
  y ← seq 0 h; (λ x, (y, x)) <$> seq 0 w.

(** Alpha channel of pixel [(x, y)] of an image. *)
Definition alpha_at (img : HTMLImageElement.t) (x y : nat) : option Z :=
  HTMLImageElement.pixels img
    !! ((y * HTMLImageElement.width img + x) * 4 + 3)%nat.


(** ** Images used to state the matting properties *)

(** A row-major RGBA buffer painted pixel by pixel. *)
Definition paint (w h : nat) (f : nat → nat → list Z) : list Z :=
  y ← seq 0 h; x ← seq 0 w; f x y.

Definition white_pixel : list Z := [255; 255; 255; 255].
Definition red_pixel : list Z := [255; 0; 0; 255].

(** The square of pixels [(20,20)] to [(60,60)], corners included. *)
Definition in_square (x y : nat) : bool :=
  bool_decide ((20 ≤ x ≤ 60)%nat ∧ (20 ≤ y ≤ 60)%nat).

Definition red_square_on_white (w h : nat) : HTMLImageElement.t :=
  HTMLImageElement.mk w h
    (paint w h (λ x y, if in_square x y then red_pixel else white_pixel))
    true.

Definition all_white (w h : nat) : HTMLImageElement.t :=
  HTMLImageElement.mk w h (paint w h (λ _ _, white_pixel)) true.

(** Every whole pixel of the buffer is within the threshold of the
    background colour. *)
Fixpoint all_near (bgR bgG bgB : option Z) (data : list Z) : bool :=
  match data with
  | r :: g :: b :: _ :: rest =>
      near bgR bgG bgB [r; g; b] 0 && all_near bgR bgG bgB rest
  | _ => true
  end.

(** Every pixel of the image is within the threshold of its top-left
    pixel. *)
Definition uniform_background (img : HTMLImageElement.t) : bool :=
  match getImageData img with
  | Some data => all_near (data !! 0%nat) (data !! 1%nat) (data !! 2%nat) data
  | None => true
  end.

(** ** Sprites: [interface ProcessedImage] (lines 133-177) *)

(** Scene numbers. *)
Definition Zc (z : Z) : Qc := Q2Qc (inject_Z z).
Definition Nc (n : nat) : Qc := Zc (Z.of_nat n).
Definition Qcleb (a b : Qc) : bool := Qle_bool a b.

(** [Math.round]: the nearest integer, halves rounded up. *)
Definition Math_round (q : Qc) : Qc := Zc (Qfloor (q + Q2Qc (1 # 2))%Qc).

(** Truthiness of an optional boolean and of an optional string. *)
Definition truthy (b : option bool) : bool := default false b.
Definition truthy_string (s : option string) : bool :=
  match s with Some s => negb (bool_decide (s = ""%string)) | None => false end.

Inductive File : Type := mkFile (name : string).

Module Model3D.
Record t : Type := mk
  { meshUrl : string; glbUrl : option string; pbrUrl : option string;
    isGenerating : bool; error : option string;
    modelType : option string }.
End Model3D.

Module Video.
Record t : Type := mk
  { videoUrl : string; isGenerating : bool; error : option string;
    prompt : option string; modelType : option string }.
End Video.

Module ProcessedImage.
Record t : Type := mk
  { id : nat;
    sourceFile : option File;
    sourceText : option string;
    processedImage : option HTMLImageElement.t;
    originalImageUrl : option string;
    showOriginal : option bool;
    x : Qc;
    y : Qc;
    width : Qc;
    height : Qc;
    isGenerating : bool;
    contentBounds : ContentBounds.t Qc;
    sourcePreviewUrl : option string;
    flippedHorizontally : option bool;
    isVariation : option bool;
    remixSuggestions : option (list string);
    generatingPrompt : option string;
    justGenerated : option bool;
    generatedAt : option Z;
    originalPrompt : option string;
    createdAt : option Z;
    completedAt : option Z;
    generationDuration : option Z;
    scale : option Qc;
    model3D : option Model3D.t;
    video : option Video.t }.

(** Object spread with one overridden key, [{ ...img, key: v }]. *)
Definition with_id v (i : t) : t :=
  let 'mk _ a2 a3 a4 a5 a6 a7 a8 a9 a10 a11 a12 a13 a14 a15 a16 a17 a18 a19
          a20 a21 a22 a23 a24 a25 a26 := i in
  mk v a2 a3 a4 a5 a6 a7 a8 a9 a10 a11 a12 a13 a14 a15 a16 a17 a18 a19
     a20 a21 a22 a23 a24 a25 a26.
Definition with_processedImage v (i : t) : t :=
  let 'mk a1 a2 a3 _ a5 a6 a7 a8 a9 a10 a11 a12 a13 a14 a15 a16 a17 a18 a19
          a20 a21 a22 a23 a24 a25 a26 := i in
  mk a1 a2 a3 v a5 a6 a7 a8 a9 a10 a11 a12 a13 a14 a15 a16 a17 a18 a19
     a20 a21 a22 a23 a24 a25 a26.
Definition with_originalImageUrl v (i : t) : t :=
  let 'mk a1 a2 a3 a4 _ a6 a7 a8 a9 a10 a11 a12 a13 a14 a15 a16 a17 a18 a19
          a20 a21 a22 a23 a24 a25 a26 := i in
  mk a1 a2 a3 a4 v a6 a7 a8 a9 a10 a11 a12 a13 a14 a15 a16 a17 a18 a19
     a20 a21 a22 a23 a24 a25 a26.
Definition with_showOriginal v (i : t) : t :=
  let 'mk a1 a2 a3 a4 a5 _ a7 a8 a9 a10 a11 a12 a13 a14 a15 a16 a17 a18 a19
          a20 a21 a22 a23 a24 a25 a26 := i in
  mk a1 a2 a3 a4 a5 v a7 a8 a9 a10 a11 a12 a13 a14 a15 a16 a17 a18 a19
     a20 a21 a22 a23 a24 a25 a26.
Definition with_x v (i : t) : t :=
  let 'mk a1 a2 a3 a4 a5 a6 _ a8 a9 a10 a11 a12 a13 a14 a15 a16 a17 a18 a19
          a20 a21 a22 a23 a24 a25 a26 := i in
  mk a1 a2 a3 a4 a5 a6 v a8 a9 a10 a11 a12 a13 a14 a15 a16 a17 a18 a19
     a20 a21 a22 a23 a24 a25 a26.
Definition with_y v (i : t) : t :=
  let 'mk a1 a2 a3 a4 a5 a6 a7 _ a9 a10 a11 a12 a13 a14 a15 a16 a17 a18 a19
          a20 a21 a22 a23 a24 a25 a26 := i in
  mk a1 a2 a3 a4 a5 a6 a7 v a9 a10 a11 a12 a13 a14 a15 a16 a17 a18 a19
     a20 a21 a22 a23 a24 a25 a26.
Definition with_width v (i : t) : t :=
  let 'mk a1 a2 a3 a4 a5 a6 a7 a8 _ a10 a11 a12 a13 a14 a15 a16 a17 a18 a19
          a20 a21 a22 a23 a24 a25 a26 := i in
  mk a1 a2 a3 a4 a5 a6 a7 a8 v a10 a11 a12 a13 a14 a15 a16 a17 a18 a19
     a20 a21 a22 a23 a24 a25 a26.
Definition with_height v (i : t) : t :=
  let 'mk a1 a2 a3 a4 a5 a6 a7 a8 a9 _ a11 a12 a13 a14 a15 a16 a17 a18 a19
          a20 a21 a22 a23 a24 a25 a26 := i in
  mk a1 a2 a3 a4 a5 a6 a7 a8 a9 v a11 a12 a13 a14 a15 a16 a17 a18 a19
     a20 a21 a22 a23 a24 a25 a26.
Definition with_isGenerating v (i : t) : t :=
  let 'mk a1 a2 a3 a4 a5 a6 a7 a8 a9 a10 _ a12 a13 a14 a15 a16 a17 a18 a19
          a20 a21 a22 a23 a24 a25 a26 := i in
  mk a1 a2 a3 a4 a5 a6 a7 a8 a9 a10 v a12 a13 a14 a15 a16 a17 a18 a19
     a20 a21 a22 a23 a24 a25 a26.
Definition with_contentBounds v (i : t) : t :=
  let 'mk a1 a2 a3 a4 a5 a6 a7 a8 a9 a10 a11 _ a13 a14 a15 a16 a17 a18 a19
          a20 a21 a22 a23 a24 a25 a26 := i in
  mk a1 a2 a3 a4 a5 a6 a7 a8 a9 a10 a11 v a13 a14 a15 a16 a17 a18 a19
     a20 a21 a22 a23 a24 a25 a26.
Definition with_sourcePreviewUrl v (i : t) : t :=
  let 'mk a1 a2 a3 a4 a5 a6 a7 a8 a9 a10 a11 a12 _ a14 a15 a16 a17 a18 a19
          a20 a21 a22 a23 a24 a25 a26 := i in
  mk a1 a2 a3 a4 a5 a6 a7 a8 a9 a10 a11 a12 v a14 a15 a16 a17 a18 a19
     a20 a21 a22 a23 a24 a25 a26.
Definition with_flippedHorizontally v (i : t) : t :=
  let 'mk a1 a2 a3 a4 a5 a6 a7 a8 a9 a10 a11 a12 a13 _ a15 a16 a17 a18 a19
          a20 a21 a22 a23 a24 a25 a26 := i in
  mk a1 a2 a3 a4 a5 a6 a7 a8 a9 a10 a11 a12 a13 v a15 a16 a17 a18 a19
     a20 a21 a22 a23 a24 a25 a26.
Definition with_remixSuggestions v (i : t) : t :=
  let 'mk a1 a2 a3 a4 a5 a6 a7 a8 a9 a10 a11 a12 a13 a14 a15 _ a17 a18 a19
          a20 a21 a22 a23 a24 a25 a26 := i in
  mk a1 a2 a3 a4 a5 a6 a7 a8 a9 a10 a11 a12 a13 a14 a15 v a17 a18 a19
     a20 a21 a22 a23 a24 a25 a26.
Definition with_generatingPrompt v (i : t) : t :=
  let 'mk a1 a2 a3 a4 a5 a6 a7 a8 a9 a10 a11 a12 a13 a14 a15 a16 _ a18 a19
          a20 a21 a22 a23 a24 a25 a26 := i in
  mk a1 a2 a3 a4 a5 a6 a7 a8 a9 a10 a11 a12 a13 a14 a15 a16 v a18 a19
     a20 a21 a22 a23 a24 a25 a26.
Definition with_originalPrompt v (i : t) : t :=
  let 'mk a1 a2 a3 a4 a5 a6 a7 a8 a9 a10 a11 a12 a13 a14 a15 a16 a17 a18 a19
          _ a21 a22 a23 a24 a25 a26 := i in
  mk a1 a2 a3 a4 a5 a6 a7 a8 a9 a10 a11 a12 a13 a14 a15 a16 a17 a18 a19
     v a21 a22 a23 a24 a25 a26.
Definition with_createdAt v (i : t) : t :=
  let 'mk a1 a2 a3 a4 a5 a6 a7 a8 a9 a10 a11 a12 a13 a14 a15 a16 a17 a18 a19
          a20 _ a22 a23 a24 a25 a26 := i in
  mk a1 a2 a3 a4 a5 a6 a7 a8 a9 a10 a11 a12 a13 a14 a15 a16 a17 a18 a19
     a20 v a22 a23 a24 a25 a26.
Definition with_completedAt v (i : t) : t :=
  let 'mk a1 a2 a3 a4 a5 a6 a7 a8 a9 a10 a11 a12 a13 a14 a15 a16 a17 a18 a19
          a20 a21 _ a23 a24 a25 a26 := i in
  mk a1 a2 a3 a4 a5 a6 a7 a8 a9 a10 a11 a12 a13 a14 a15 a16 a17 a18 a19
     a20 a21 v a23 a24 a25 a26.
Definition with_generationDuration v (i : t) : t :=
  let 'mk a1 a2 a3 a4 a5 a6 a7 a8 a9 a10 a11 a12 a13 a14 a15 a16 a17 a18 a19
          a20 a21 a22 _ a24 a25 a26 := i in
  mk a1 a2 a3 a4 a5 a6 a7 a8 a9 a10 a11 a12 a13 a14 a15 a16 a17 a18 a19
     a20 a21 a22 v a24 a25 a26.
Definition with_scale v (i : t) : t :=
  let 'mk a1 a2 a3 a4 a5 a6 a7 a8 a9 a10 a11 a12 a13 a14 a15 a16 a17 a18 a19
          a20 a21 a22 a23 _ a25 a26 := i in
  mk a1 a2 a3 a4 a5 a6 a7 a8 a9 a10 a11 a12 a13 a14 a15 a16 a17 a18 a19
     a20 a21 a22 a23 v a25 a26.
End ProcessedImage.

(** ** Prompt texts (lines 25-65) and game modes (line 68) *)

Inductive GameMode : Type := pixel | building | anime | sticker | complete.

Definition PROMPT_PREFIX_IMAGE : string :=
  "Concisely identify and name the main subject in this image (e.g. person, character, object, building, vehicle, animal, landscape, nature scene, sky, ocean, mountain, forest, or any other element). ".
Definition PROMPT_POSTFIX : string :=
  "in isometric perspective, 8-bit sprite on a white background. No drop shadow".
Definition PROMPT_MAIN (subject : string) : string :=
  "Create 3d pixel art of " +:+ subject +:+ " ".
Definition IMAGE_PROMPT : string :=
  PROMPT_PREFIX_IMAGE +:+ PROMPT_MAIN "the isolated key entity" +:+ PROMPT_POSTFIX.
Definition TEXT_PROMPT_TEMPLATE (input : string) : string :=
  PROMPT_MAIN input +:+ PROMPT_POSTFIX.
Definition REMIX_PROMPT_TEMPLATE (input : string) : string :=
  input +:+ ". Keep it as 3d pixel art in isometric perspective, 8-bit sprite on white background. No drop shadow.".
Definition BUILDING_PREFIX_IMAGE : string :=
  "Identify and convert this architectural element, building, structure, or construction (e.g. house, tower, bridge, monument, infrastructure, urban element) into an isometric 2D representation. ".
Definition BUILDING_POSTFIX : string :=
  "in isometric perspective, architectural style, clean 2D building sprite on white background. No drop shadow, no people, no vehicles.".
Definition BUILDING_MAIN (subject : string) : string :=
  "Create an isometric 2D building of " +:+ subject +:+ " ".
Definition BUILDING_IMAGE_PROMPT : string :=
  BUILDING_PREFIX_IMAGE +:+ BUILDING_MAIN "this building/structure" +:+ BUILDING_POSTFIX.
Definition BUILDING_TEXT_PROMPT_TEMPLATE (input : string) : string :=
  BUILDING_MAIN input +:+ BUILDING_POSTFIX.
Definition ANIME_PREFIX_IMAGE : string :=
  "Identify and convert this subject (character, person, creature, object, scene, landscape, or any element) into a high-definition anime-style isometric representation. ".
Definition ANIME_POSTFIX : string :=
  "in ultra-detailed anime isometric style, high resolution, vibrant colors, clean sprite on white background. No drop shadow, anime aesthetic with detailed shading, isometric perspective.".
Definition ANIME_MAIN (subject : string) : string :=
  "Create a high-definition anime isometric art of " +:+ subject +:+ " ".
Definition ANIME_IMAGE_PROMPT : string :=
  ANIME_PREFIX_IMAGE +:+ ANIME_MAIN "this character/object" +:+ ANIME_POSTFIX.
Definition ANIME_TEXT_PROMPT_TEMPLATE (input : string) : string :=
  ANIME_MAIN input +:+ ANIME_POSTFIX.
Definition STICKER_PREFIX_IMAGE : string :=
  "Convert this entire image into a high-quality 3D perspective sticker design. ".
Definition STICKER_POSTFIX : string :=
  "in 3D perspective style, vibrant colors, professional sticker design on transparent background. No drop shadow, clean edges, logo-ready quality, suitable for printing.".
Definition STICKER_MAIN (subject : string) : string :=
  "Create a 3D perspective sticker design of " +:+ subject +:+ " ".
Definition STICKER_IMAGE_PROMPT : string :=
  STICKER_PREFIX_IMAGE +:+ STICKER_MAIN "the complete scene/image" +:+ STICKER_POSTFIX.
Definition STICKER_TEXT_PROMPT_TEMPLATE (input : string) : string :=
  STICKER_MAIN input +:+ STICKER_POSTFIX.
Definition COMPLETE_PREFIX_IMAGE : string :=
  "Recreate this entire image as a complete isometric pixel art scene, including all elements, objects, characters, backgrounds, and details visible in the original image. ".
Definition COMPLETE_POSTFIX : string :=
  "in isometric perspective, 3D pixel art style, maintaining the complete composition and all visual elements on white background. No drop shadow, preserve all details and spatial relationships.".
Definition COMPLETE_MAIN (subject : string) : string :=
  "Create a complete isometric pixel art recreation of " +:+ subject +:+ " ".
Definition COMPLETE_IMAGE_PROMPT : string :=
  COMPLETE_PREFIX_IMAGE +:+ COMPLETE_MAIN "the entire scene with all elements" +:+ COMPLETE_POSTFIX.
Definition COMPLETE_TEXT_PROMPT_TEMPLATE (input : string) : string :=
  COMPLETE_MAIN input +:+ COMPLETE_POSTFIX.

(** ** Application state: the registry [images], the selection, the id
    counter [nextId] and the game mode (lines 312-327) *)

Record AppState : Type := mkState
  { images : list ProcessedImage.t;
    selectedImageId : option nat;
    nextId : nat;
    gameMode : GameMode }.

(** [img.id === sel] for [sel : number | null]. *)
Definition id_is (sel : option nat) (img : ProcessedImage.t) : bool :=
  match sel with
  | Some i => bool_decide (ProcessedImage.id img = i)
  | None => false
  end.

(** [prev.map(img => img.id === sel ? f(img) : img)]. *)
Definition patch_by_id (sel : option nat)
    (f : ProcessedImage.t → ProcessedImage.t)
    (prev : list ProcessedImage.t) : list ProcessedImage.t :=
  (λ img, if id_is sel img then f img else img) <$> prev.

(** [prev.filter(img => img.id !== sel)]. *)
Definition remove_by_id (sel : option nat) (prev : list ProcessedImage.t)
  : list ProcessedImage.t :=
  List.filter (λ img, negb (id_is sel img)) prev.

(** [images.find(img => img.id === sel)]. *)
Definition find_by_id (sel : option nat) (imgs : list ProcessedImage.t)
  : option ProcessedImage.t :=
  List.find (id_is sel) imgs.

(** Lines 347-352. *)
Definition selectedImage (st : AppState) : option ProcessedImage.t :=
  match selectedImageId st with
  | Some i => find_by_id (Some i) (images st)
  | None => None
  end.

Definition isActionDisabled (st : AppState) : bool :=
  match selectedImage st with
  | None => true
  | Some img => ProcessedImage.isGenerating img
  end.

(** ** Hit testing: [getImageAtPosition] (lines 1101-1137) *)

(** [img.scale || 1]. *)
Definition scale_or_1 (img : ProcessedImage.t) : Qc :=
  match ProcessedImage.scale img with
  | Some s => if bool_decide (s = Q2Qc 0) then Q2Qc 1 else s
  | None => Q2Qc 1
  end.

Definition scaledWidth (img : ProcessedImage.t) : Qc :=
  (ProcessedImage.width img * scale_or_1 img)%Qc.
Definition scaledHeight (img : ProcessedImage.t) : Qc :=
  (ProcessedImage.height img * scale_or_1 img)%Qc.

(** The outer rectangle test of the loop body. *)
Definition in_rectangle (x y : Qc) (img : ProcessedImage.t) : bool :=
  Qcleb (ProcessedImage.x img) x
  && Qcleb x (ProcessedImage.x img + scaledWidth img)%Qc
  && Qcleb (ProcessedImage.y img) y
  && Qcleb y (ProcessedImage.y img + scaledHeight img)%Qc.

(** The content-bounds test of a finished image. *)
Definition in_scaledBounds (x y : Qc) (img : ProcessedImage.t)
    (p : HTMLImageElement.t) : bool :=
  let localX := (x - ProcessedImage.x img)%Qc in
  let localY := (y - ProcessedImage.y img)%Qc in
  let scaleX := (scaledWidth img / Nc (HTMLImageElement.width p))%Qc in
  let scaleY := (scaledHeight img / Nc (HTMLImageElement.height p))%Qc in
  let cb := ProcessedImage.contentBounds img in
  let bx := (ContentBounds.x cb * scaleX)%Qc in
  let by_ := (ContentBounds.y cb * scaleY)%Qc in
  let bw := (ContentBounds.width cb * scaleX)%Qc in
  let bh := (ContentBounds.height cb * scaleY)%Qc in
  Qcleb bx localX && Qcleb localX (bx + bw)%Qc
  && Qcleb by_ localY && Qcleb localY (by_ + bh)%Qc.

(** Whether the loop body returns [img] for the pointer [(x, y)]. *)
Definition hits (x y : Qc) (img : ProcessedImage.t) : bool :=
  if in_rectangle x y img then
    if ProcessedImage.isGenerating img then true
    else match ProcessedImage.processedImage img with
         | Some p => in_scaledBounds x y img p
         | None => false
         end
  else false.

(** [for (let i = images.length - 1; i >= 0; i--)]: the last sprite of the
    list that is hit. *)
Definition getImageAtPosition (imgs : list ProcessedImage.t) (x y : Qc)
  : option ProcessedImage.t :=
  List.find (hits x y) (reverse imgs).

(** ** Rendering of a sprite's image: [drawCanvas] (lines 498-544) *)

(** One [ctx.drawImage(image, dx, dy, dw, dh)], issued under
    [ctx.scale(-1, 1)] when [mirrored]. *)
Record DrawImage : Type := mkDraw
  { image : HTMLImageElement.t;
    mirrored : bool;
    dx : Qc; dy : Qc; dw : Qc; dh : Qc }.

(** [originalImageCache.current[id]] is a parameter of the render. *)
Definition imageToDraw (cache : nat → option HTMLImageElement.t)
    (img : ProcessedImage.t) : option HTMLImageElement.t :=
  match cache (ProcessedImage.id img) with
  | Some o => if truthy (ProcessedImage.showOriginal img) then Some o
              else ProcessedImage.processedImage img
  | None => ProcessedImage.processedImage img
  end.

Definition drawCanvas_image (cache : nat → option HTMLImageElement.t)
    (img : ProcessedImage.t) : option DrawImage :=
  let drawX := Math_round (ProcessedImage.x img) in
  let drawY := Math_round (ProcessedImage.y img) in
  match imageToDraw cache img with
  | None => None
  | Some im =>
      if negb (ProcessedImage.isGenerating img) then
        if truthy (ProcessedImage.flippedHorizontally img)
        then Some (mkDraw im true (- drawX - scaledWidth img)%Qc drawY
                          (scaledWidth img) (scaledHeight img))
        else Some (mkDraw im false drawX drawY
                          (scaledWidth img) (scaledHeight img))
      else
        if truthy (ProcessedImage.flippedHorizontally img)
        then Some (mkDraw im true
                          (- drawX - ProcessedImage.width img)%Qc drawY
                          (ProcessedImage.width img) (ProcessedImage.height img))
        else Some (mkDraw im false drawX drawY
                          (ProcessedImage.width img) (ProcessedImage.height img))
  end.


(** Canvas API: the abscissa, in the source image's pixel space, of the
    point painted at canvas abscissa [cx] ([drawImage] stretches the source
    width over [dw]). *)
Definition source_x_at (d : DrawImage) (cx : Qc) : Qc :=
  let u := if mirrored d then (- cx)%Qc else cx in
  ((u - dx d) * Nc (HTMLImageElement.width (image d)) / dw d)%Qc.
Definition source_y_at (d : DrawImage) (cy : Qc) : Qc :=
  ((cy - dy d) * Nc (HTMLImageElement.height (image d)) / dh d)%Qc.

(** Whether the canvas point shows a point of the image's content
    rectangle [cb] (given in the source image's pixel space). *)
Definition paints_content (d : DrawImage) (cb : ContentBounds.t Qc)
    (cx cy : Qc) : bool :=
  let sx := source_x_at d cx in
  let sy := source_y_at d cy in
  Qcleb (ContentBounds.x cb) sx
  && Qcleb sx (ContentBounds.x cb + ContentBounds.width cb)%Qc
  && Qcleb (ContentBounds.y cb) sy
  && Qcleb sy (ContentBounds.y cb + ContentBounds.height cb)%Qc.

(** ** Generation orchestrator: [generateFromImage] (lines 700-781) and
    [generateFromText] (lines 783-859) *)

(** The settlement of an awaited promise inside the [try] block. *)
Inductive Awaited (A : Type) : Type :=
| Fulfilled (a : A)
| Rejected.
Arguments Fulfilled {A} _.
Arguments Rejected {A}.

#[global] Instance Awaited_bind : MBind Awaited := λ A B f m,
  match m with Fulfilled a => f a | Rejected => Rejected end.

(** What the outside world answers to one generation: the image service,
    the decoding of the returned URL, the conversion of the matted image to
    a file, the suggestion service, and the clock at completion. *)
Record Generation : Type := mkGeneration
  { imageUrl : Awaited (option string);
    decoded : ImageLoad;
    imageFileForSuggestions : Awaited File;
    suggestions : Awaited (list string);
    endTime : Z }.

(** The statements of the [try] block up to the completion patch; a
    rejection of any awaited call leaves the block. *)
Definition generation_try (g : Generation)
  : Awaited (string * ImageProcessingResult * list string) :=
  o ← imageUrl g;
  url ← (match o with
         | Some u => if truthy_string (Some u) then Fulfilled u else Rejected
         | None => Rejected
         end);
  r ← (match processImageForTransparency (decoded g) with
       | Some r => Fulfilled r
       | None => Rejected
       end);
  _ ← imageFileForSuggestions g;
  s ← suggestions g;
  Fulfilled (url, r, s).

(** The synchronous patch at the start of a generation (lines 718-724 and
    799-805). *)
Definition start_patch (prompt : string) (startTime : Z)
    (img : ProcessedImage.t) : ProcessedImage.t :=
  ProcessedImage.with_createdAt (Some startTime)
    (ProcessedImage.with_originalPrompt (Some prompt) img).

(** The geometry written by a completion patch. *)
Definition newWidth : Qc := Zc IMAGE_WIDTH.
Definition newHeight (transparent : HTMLImageElement.t) : Qc :=
  let aspectRatio := (Nc (HTMLImageElement.width transparent)
                      / Nc (HTMLImageElement.height transparent))%Qc in
  (Zc IMAGE_WIDTH / aspectRatio)%Qc.
Definition currentCenterX (img : ProcessedImage.t) : Qc :=
  (ProcessedImage.x img + ProcessedImage.width img / Q2Qc 2)%Qc.
Definition currentCenterY (img : ProcessedImage.t) : Qc :=
  (ProcessedImage.y img + ProcessedImage.height img / Q2Qc 2)%Qc.

(** Completion patch of [generateFromText] (lines 832-847). *)
Definition text_completion_patch (url : string) (r : ImageProcessingResult)
    (s : list string) (startTime endTime_ : Z)
    (img : ProcessedImage.t) : ProcessedImage.t :=
  let t := transparentImage r in
  ProcessedImage.with_processedImage (Some t)
  (ProcessedImage.with_originalImageUrl (Some url)
  (ProcessedImage.with_showOriginal (Some false)
  (ProcessedImage.with_contentBounds (ContentBounds.map Zc (contentBounds r))
  (ProcessedImage.with_width newWidth
  (ProcessedImage.with_height (newHeight t)
  (ProcessedImage.with_x (currentCenterX img - newWidth / Q2Qc 2)%Qc
  (ProcessedImage.with_y (currentCenterY img - newHeight t / Q2Qc 2)%Qc
  (ProcessedImage.with_isGenerating false
  (ProcessedImage.with_remixSuggestions (Some s)
  (ProcessedImage.with_completedAt (Some endTime_)
  (ProcessedImage.with_generationDuration (Some (endTime_ - startTime))
  (ProcessedImage.with_scale (Some (Q2Qc 1)) img)))))))))))).

(** Completion patch of [generateFromImage] (lines 752-769): the same, and
    [sourcePreviewUrl] and [generatingPrompt] are reset. *)
Definition image_completion_patch (url : string) (r : ImageProcessingResult)
    (s : list string) (startTime endTime_ : Z)
    (img : ProcessedImage.t) : ProcessedImage.t :=
  ProcessedImage.with_sourcePreviewUrl None
  (ProcessedImage.with_generatingPrompt None
  (text_completion_patch url r s startTime endTime_ img)).

(** The registry update made when the generation settles: the completion
    patch of the sprite [id], or, from the [catch] block, its removal. *)
Definition settle
    (patch : string → ImageProcessingResult → list string → Z → Z →
             ProcessedImage.t → ProcessedImage.t)
    (id : nat) (startTime : Z) (g : Generation)
    (prev : list ProcessedImage.t) : list ProcessedImage.t :=
  match generation_try g with
  | Fulfilled (url, r, s) =>
      patch_by_id (Some id) (patch url r s startTime (endTime g)) prev
  | Rejected => remove_by_id (Some id) prev
  end.

Definition generateFromImage_settle := settle image_completion_patch.
Definition generateFromText_settle := settle text_completion_patch.




(** [defaultPrompt] of [generateFromImage] and [fullPrompt] of
    [generateFromText]. *)
Definition defaultPrompt (m : GameMode) : string :=
  match m with
  | building => BUILDING_IMAGE_PROMPT
  | anime => ANIME_IMAGE_PROMPT
  | sticker => STICKER_IMAGE_PROMPT
  | complete => COMPLETE_IMAGE_PROMPT
  | pixel => IMAGE_PROMPT
  end.
Definition finalPrompt (m : GameMode) (prompt : option string) : string :=
  match prompt with
  | Some p => if truthy_string (Some p) then p else defaultPrompt m
  | None => defaultPrompt m
  end.
Definition fullPrompt (m : GameMode) (userInput : string) : string :=
  match m with
  | building => BUILDING_TEXT_PROMPT_TEMPLATE userInput
  | anime => ANIME_TEXT_PROMPT_TEMPLATE userInput
  | sticker => STICKER_TEXT_PROMPT_TEMPLATE userInput
  | complete => COMPLETE_TEXT_PROMPT_TEMPLATE userInput
  | pixel => TEXT_PROMPT_TEMPLATE userInput
  end.

Definition generateFromImage_start (m : GameMode) (id : nat)
    (prompt : option string) (startTime : Z)
    (prev : list ProcessedImage.t) : list ProcessedImage.t :=
  patch_by_id (Some id) (start_patch (finalPrompt m prompt) startTime) prev.
Definition generateFromText_start (m : GameMode) (userInput : string)
    (id : nat) (startTime : Z)
    (prev : list ProcessedImage.t) : list ProcessedImage.t :=
  patch_by_id (Some id) (start_patch (fullPrompt m userInput) startTime) prev.

(** ** Interaction controller: the handlers of the selected sprite *)

Definition set_images (imgs : list ProcessedImage.t) (st : AppState)
  : AppState :=
  mkState imgs (selectedImageId st) (nextId st) (gameMode st).

(** [handleDeleteSelected] (lines 1232-1238). *)
Definition handleDeleteSelected (st : AppState) : AppState :=
  if isActionDisabled st then st
  else mkState (remove_by_id (selectedImageId st) (images st))
               None (nextId st) (gameMode st).

(** [handleRegenerateSelected] (lines 1240-1252), up to the first
    suspension of the generation it starts. *)
Definition handleRegenerateSelected (startTime : Z) (st : AppState)
  : AppState :=
  if isActionDisabled st then st
  else match find_by_id (selectedImageId st) (images st) with
       | None => st
       | Some imageToRegen =>
           let marked :=
             patch_by_id (selectedImageId st)
               (λ img, ProcessedImage.with_generatingPrompt None
                         (ProcessedImage.with_isGenerating true img))
               (images st) in
           match ProcessedImage.sourceFile imageToRegen with
           | Some _ =>
               set_images
                 (generateFromImage_start (gameMode st)
                    (ProcessedImage.id imageToRegen) (Some IMAGE_PROMPT)
                    startTime marked) st
           | None =>
               match ProcessedImage.sourceText imageToRegen with
               | Some txt =>
                   if truthy_string (Some txt) then
                     set_images
                       (generateFromText_start (gameMode st) txt
                          (ProcessedImage.id imageToRegen) startTime marked)
                       st
                   else set_images marked st
               | None => set_images marked st
               end
           end
       end.

(** [handleFlipSelected] (lines 1254-1266). *)
Definition flip (img : ProcessedImage.t) : ProcessedImage.t :=
  ProcessedImage.with_flippedHorizontally
    (Some (negb (truthy (ProcessedImage.flippedHorizontally img)))) img.

Definition handleFlipSelected (st : AppState) : AppState :=
  if isActionDisabled st then st
  else match find_by_id (selectedImageId st) (images st) with
       | None => st
       | Some _ =>
           set_images (patch_by_id (selectedImageId st) flip (images st)) st
       end.

(** [handleDuplicateSelected] (lines 1268-1292). *)
Definition handleDuplicateSelected (st : AppState) : AppState :=
  if isActionDisabled st then st
  else match find_by_id (selectedImageId st) (images st) with
       | None => st
       | Some imageToDuplicate =>
           let newId := nextId st in
           let duplicatedImage :=
             ProcessedImage.with_id newId
               (ProcessedImage.with_x
                  (ProcessedImage.x imageToDuplicate + Zc 40)%Qc
                  (ProcessedImage.with_y
                     (ProcessedImage.y imageToDuplicate + Zc 20)%Qc
                     imageToDuplicate)) in
           mkState (images st ++ [duplicatedImage]) (Some newId)
                   (S (nextId st)) (gameMode st)
       end.

(** [handleRemixSubmit] (lines 1294-1326), up to the first suspension of
    the generation it starts; [file] is the settlement of
    [imageElementToFile], awaited after the id has been drawn. *)
Definition handleRemixSubmit (prompt : string) (file : Awaited File)
    (startTime : Z) (st : AppState) : AppState :=
  if isActionDisabled st then st
  else match find_by_id (selectedImageId st) (images st) with
       | None => st
       | Some imageToRemix =>
           match ProcessedImage.processedImage imageToRemix with
           | None => st
           | Some p =>
               let newId := nextId st in
               match file with
               | Rejected =>
                   mkState (images st) (selectedImageId st) (S (nextId st))
                           (gameMode st)
               | Fulfilled sourceFileForRemix =>
                   let newImage :=
                     ProcessedImage.mk newId (Some sourceFileForRemix) None
                       (Some p) None None
                       (ProcessedImage.x imageToRemix + Zc 40)%Qc
                       (ProcessedImage.y imageToRemix + Zc 20)%Qc
                       (ProcessedImage.width imageToRemix)
                       (ProcessedImage.height imageToRemix)
                       true
                       (ContentBounds.mk (Zc 0) (Zc 0)
                          (ProcessedImage.width imageToRemix)
                          (ProcessedImage.height imageToRemix))
                       None
                       (ProcessedImage.flippedHorizontally imageToRemix)
                       (Some true) None (Some prompt)
                       None None None None None None None None None in
                   mkState
                     (generateFromImage_start (gameMode st) newId
                        (Some (REMIX_PROMPT_TEMPLATE prompt)) startTime
                        (images st ++ [newImage]))
                     (Some newId) (S (nextId st)) (gameMode st)
               end
           end
       end.

(** [handleScaleChange] (lines 1782-1786); [newScale] is an entry of
    [SCALE_OPTIONS]. *)
Definition handleScaleChange (imageId : nat) (newScale : Qc)
    (st : AppState) : AppState :=
  set_images
    (patch_by_id (Some imageId) (ProcessedImage.with_scale (Some newScale))
       (images st)) st.

(** [handleTextSubmit] (lines 1199-1230) for a non-empty trimmed input, up
    to the first suspension; [dropX], [dropY] is the canvas centre. *)
Definition PLACEHOLDER_WIDTH : Z := 250.

Definition handleTextSubmit (trimmedInput : string) (dropX dropY : Qc)
    (startTime : Z) (st : AppState) : AppState :=
  if bool_decide (trimmedInput = ""%string) then st
  else
    let id := nextId st in
    let newImage :=
      ProcessedImage.mk id None (Some trimmedInput) None None None
        (dropX - Zc PLACEHOLDER_WIDTH / Q2Qc 2)%Qc
        (dropY - Zc PLACEHOLDER_WIDTH / Q2Qc 2)%Qc
        (Zc PLACEHOLDER_WIDTH) (Zc PLACEHOLDER_WIDTH)
        true
        (ContentBounds.mk (Zc 0) (Zc 0)
           (Zc PLACEHOLDER_WIDTH) (Zc PLACEHOLDER_WIDTH))
        None (Some false) (Some false) None None
        None None None None None None None None None in
    mkState
      (generateFromText_start (gameMode st) trimmedInput id startTime
         (images st ++ [newImage]))
      (selectedImageId st) (S (nextId st)) (gameMode st).



(** [handleInteractionStart] (lines 1139-1152): the registry and the
    selection after a press at canvas point [(x, y)]. *)
Definition handleInteractionStart (x y : Qc) (st : AppState) : AppState :=
  match getImageAtPosition (images st) x y with
  | Some targetImage =>
      mkState
        (remove_by_id (Some (ProcessedImage.id targetImage)) (images st)
         ++ [targetImage])
        (Some (ProcessedImage.id targetImage)) (nextId st) (gameMode st)
  | None => mkState (images st) None (nextId st) (gameMode st)
  end.

(** The controls of the selected sprite (line 2114) are rendered as
    [{selectedImage && !selectedImage.isGenerating && (...)}]; the scale
    slider (lines 2237-2247) is one of them and is the only caller of
    [handleScaleChange].  [slider] is the slider's [onChange] when the
    slider is rendered: it takes [SCALE_OPTIONS[scaleIndex]] for the index
    the range input reports (0 to 3) and passes the selected sprite's id;
    an index past the list would write [scale: undefined]. *)
Definition slider (st : AppState) : option (nat → AppState) :=
  match selectedImage st with
  | Some img =>
      if ProcessedImage.isGenerating img then None
      else
        Some (λ scaleIndex,
          match SCALE_OPTIONS !! scaleIndex with
          | Some newScale =>
              handleScaleChange (ProcessedImage.id img) newScale st
          | None =>
              set_images
                (patch_by_id (Some (ProcessedImage.id img))
                   (ProcessedImage.with_scale None) (images st)) st
          end)
  | None => None
  end.

(** The guarded actions, as dispatched from buttons, keys, the remix input
    and the scale slider.  The first five call their handler; a change of
    the slider reaches [handleScaleChange] through [slider], and there is
    nothing to change while the slider is not rendered. *)
Inductive Action : Type :=
| Regenerate (startTime : Z)
| Flip
| Duplicate
| Delete
| Remix (prompt : string) (file : Awaited File) (startTime : Z)
| Scale (scaleIndex : nat).

Definition dispatch (a : Action) (st : AppState) : AppState :=
  match a with
  | Regenerate t => handleRegenerateSelected t st
  | Flip => handleFlipSelected st
  | Duplicate => handleDuplicateSelected st
  | Delete => handleDeleteSelected st
  | Remix p f t => handleRemixSubmit p f t st
  | Scale i =>
      match slider st with
      | Some onChange => onChange i
      | None => st
      end
  end.

(** ** Scenes used in the examples *)

Definition initial_state : AppState := mkState [] None 0 pixel.

(** A generation whose every awaited call is fulfilled, returning the image
    [im] and the suggestions [s]. *)
Definition successful_generation (im : HTMLImageElement.t) (s : list string)
    (t : Z) : Generation :=
  mkGeneration (Fulfilled (Some "https://cdn.example/result.png"))
               (Decoded im true)
               (Fulfilled (mkFile "suggestion-source.png"))
               (Fulfilled s) t.

(** A generation whose image call succeeds and whose suggestion call is
    rejected. *)
Definition suggestion_failure (im : HTMLImageElement.t) (t : Z) : Generation :=
  mkGeneration (Fulfilled (Some "https://cdn.example/result.png"))
               (Decoded im true)
               (Fulfilled (mkFile "suggestion-source.png"))
               Rejected t.

(** A 400 x 300 image served from another origin (its pixels cannot be
    read back, so matting resolves through its [catch] branch). *)
Definition image_400x300 : HTMLImageElement.t :=
  HTMLImageElement.mk 400 300 [] false.

(** A 100 x 100 image whose opaque content is the 20-pixel-wide column at
    its left edge. *)
Definition left_column_image : HTMLImageElement.t :=
  HTMLImageElement.mk 100 100 [] false.
Definition left_column_bounds : ContentBounds.t Qc :=
  ContentBounds.mk (Zc 0) (Zc 0) (Zc 20) (Zc 100).

(** A finished sprite at the origin showing [left_column_image] at its
    pixel size, with the given flip flag. *)
Definition left_column_sprite (flipped : option bool) : ProcessedImage.t :=
  ProcessedImage.mk 0 None (Some "flag"%string) (Some left_column_image)
    (Some "https://cdn.example/flag.png"%string) (Some false)
    (Zc 0) (Zc 0) (Zc 100) (Zc 100) false left_column_bounds
    None flipped (Some false) (Some []) None None None
    (Some (TEXT_PROMPT_TEMPLATE "flag")) (Some 0) (Some 1000) (Some 1000)
    (Some (Q2Qc 1)) None None.

(** The text-prompt scenario: prompt "castle" on a 1920 x 1080 canvas. *)
Definition castle_submitted : AppState :=
  handleTextSubmit "castle" (Zc 960) (Zc 540) 0 initial_state.
Definition castle_ready : AppState :=
  set_images
    (generateFromText_settle 0 0 (successful_generation image_400x300 [] 5000)
       (images castle_submitted))
    castle_submitted.


Definition castle_selected : AppState :=
  handleInteractionStart (Zc 960) (Zc 540) castle_ready.


(** Position, size and state of the sprites of a registry, as fractions. *)
Definition geometry (img : ProcessedImage.t) : Q * Q * Q * Q * bool :=
  (this (ProcessedImage.x img), this (ProcessedImage.y img),
   this (ProcessedImage.width img), this (ProcessedImage.height img),
   ProcessedImage.isGenerating img).

(** ** The text-prompt scenario in binary64

    The arithmetic of the completion patch on IEEE 754 doubles, for
    checking that the exact values of the rational model are the values
    the JavaScript operations produce. *)
Module Binary64.
Definition newHeight (w h : float) : float :=
  let aspectRatio := PrimFloat.div w h in
  PrimFloat.div 375%float aspectRatio.
Definition recentre (pos size newSize : float) : float :=
  let currentCenter := PrimFloat.add pos (PrimFloat.div size 2%float) in
  PrimFloat.sub currentCenter (PrimFloat.div newSize 2%float).
End Binary64.

(** * Theorems *)

(** ** The alpha pass *)

Section AlphaPass.
Variables bgR bgG bgB : option Z.

Let F := λ (d : list Z) (k : nat), matte_pixel bgR bgG bgB d (4 * k)%nat.

Lemma length_matte_pixel d i :
  length (matte_pixel bgR bgG bgB d i) = length d.
Proof. unfold matte_pixel. case_match; [apply length_insert | done]. Qed.

Lemma matte_pixel_lookup_ne d i j :
  j ≠ (i + 3)%nat → matte_pixel bgR bgG bgB d i !! j = d !! j.
Proof.
  intros Hne. unfold matte_pixel. case_match; [|done].
  by rewrite list_lookup_insert_ne.
Qed.

Lemma matte_pixel_lookup_alpha d i :
  (i + 3 < length d)%nat →
  matte_pixel bgR bgG bgB d i !! (i + 3)%nat =
    if near bgR bgG bgB d i then Some 0 else d !! (i + 3)%nat.
Proof.
  intros Hlt. unfold matte_pixel, near. case_match; [|done].
  by rewrite list_lookup_insert_eq.
Qed.

Lemma near_matte_pixel d k0 k :
  near bgR bgG bgB (matte_pixel bgR bgG bgB d (4 * k0)) (4 * k)
  = near bgR bgG bgB d (4 * k).
Proof.
  unfold near, distanceSquared.
  rewrite !matte_pixel_lookup_ne by lia. done.
Qed.

Lemma length_foldl_matte ks d : length (foldl F d ks) = length d.
Proof.
  revert d. induction ks as [|k ks IH]; intros d; simpl; [done|].
  rewrite IH. apply length_matte_pixel.
Qed.

Lemma near_foldl_matte ks d k :
  near bgR bgG bgB (foldl F d ks) (4 * k) = near bgR bgG bgB d (4 * k).
Proof.
  revert d. induction ks as [|k0 ks IH]; intros d; simpl; [done|].
  rewrite IH. apply near_matte_pixel.
Qed.

(** A position keeps its value unless the loop reaches it as the alpha
    channel of a pixel close to the background. *)
Lemma foldl_matte_unchanged ks d j :
  (∀ k, k ∈ ks → j = (4 * k + 3)%nat → near bgR bgG bgB d (4 * k) = false) →
  foldl F d ks !! j = d !! j.
Proof.
  revert d. induction ks as [|k0 ks IH]; intros d Hks; simpl; [done|].
  rewrite IH.
  - unfold F, matte_pixel. fold (near bgR bgG bgB d (4 * k0)).
    destruct (near bgR bgG bgB d (4 * k0)) eqn:Hn; [|done].
    destruct (decide (j = (4 * k0 + 3)%nat)) as [->|Hne].
    + rewrite Hks in Hn; [done|left|done].
    + by rewrite list_lookup_insert_ne.
  - intros k Hk Hj. unfold F. rewrite near_matte_pixel.
    apply Hks; [by right|done].
Qed.

Lemma foldl_matte_zero_stays ks d j :
  d !! j = Some 0 → foldl F d ks !! j = Some 0.
Proof.
  revert d. induction ks as [|k0 ks IH]; intros d Hj; simpl; [done|].
  apply IH. unfold F, matte_pixel. case_match; [|done].
  destruct (decide (j = (4 * k0 + 3)%nat)) as [->|Hne].
  - apply list_lookup_insert_eq. by eapply lookup_lt_Some.
  - by rewrite list_lookup_insert_ne.
Qed.

Lemma foldl_matte_zero ks d k :
  k ∈ ks → near bgR bgG bgB d (4 * k) = true → (4 * k + 3 < length d)%nat →
  foldl F d ks !! (4 * k + 3)%nat = Some 0.
Proof.
  revert d. induction ks as [|k0 ks IH]; intros d Hin Hn Hlt; simpl.
  - by apply elem_of_nil in Hin.
  - apply elem_of_cons in Hin as [->|Hin].
    + apply foldl_matte_zero_stays. unfold F.
      rewrite matte_pixel_lookup_alpha by done. by rewrite Hn.
    + apply IH; [done| |].
      * unfold F. by rewrite near_matte_pixel.
      * unfold F. by rewrite length_matte_pixel.
Qed.
End AlphaPass.

Lemma length_alpha_pass data : length (alpha_pass data) = length data.
Proof. unfold alpha_pass. apply length_foldl_matte. Qed.

(** After the first loop, the alpha channel of pixel [k] is [0] when the
    pixel is close to the background and is untouched otherwise. *)
Lemma alpha_pass_alpha data k :
  (4 * k + 3 < length data)%nat →
  alpha_pass data !! (4 * k + 3)%nat =
    if near (data !! 0%nat) (data !! 1%nat) (data !! 2%nat) data (4 * k)
    then Some 0 else data !! (4 * k + 3)%nat.
Proof.
  intros Hlt. unfold alpha_pass.
  destruct (near _ _ _ data (4 * k)) eqn:Hn.
  - apply foldl_matte_zero; [|done|done].
    apply elem_of_seq. split; [lia|].
    apply Nat.lt_le_trans with (S k); [lia|].
    rewrite Nat.add_0_l. apply Nat.div_le_lower_bound; lia.
  - apply foldl_matte_unchanged. intros k' _ Hk'.
    by replace k' with k by lia.
Qed.

(** ** The bounding-box sweep *)

Lemma foldl_rows {A} (f : nat → nat → A → A) (xs ys : list nat) (a : A) :
  foldl (λ b y, foldl (λ b x, f y x b) b xs) a ys
  = foldl (λ b p, f p.1 p.2 b) a (y ← ys; (λ x, (y, x)) <$> xs).
Proof.
  revert a. induction ys as [|y ys IH]; intros a; [done|].
  simpl. rewrite foldl_app, IH. f_equal.
  generalize a. clear. induction xs as [|x xs IH]; intros a; [done|].
  simpl. apply IH.
Qed.

Lemma bbox_pass_flat w h d :
  bbox_pass w h d
  = foldl (λ b p, bbox_step w d p.1 p.2 b)
          (mkBox (Z.of_nat w) (Z.of_nat h) (-1) (-1)) (pixel_coords w h).
Proof. unfold bbox_pass, pixel_coords. apply (foldl_rows (bbox_step w d)). Qed.

Lemma elem_of_pixel_coords w h y x :
  (y, x) ∈ pixel_coords w h ↔ (x < w)%nat ∧ (y < h)%nat.
Proof.
  unfold pixel_coords. rewrite list_elem_of_bind. split.
  - intros (y' & Hx & Hy). apply list_elem_of_fmap in Hx as (x' & [= -> ->] & Hx).
    apply elem_of_seq in Hx, Hy. lia.
  - intros [Hx Hy]. exists y. split; [|apply elem_of_seq; lia].
    apply list_elem_of_fmap. exists x. split; [done|apply elem_of_seq; lia].
Qed.

(** The sweep keeps: every opaque pixel seen so far lies inside the box, and
    each side of the box is either at its initial value or at the coordinate
    of an opaque pixel seen so far. *)
Lemma bbox_fold_spec w h d cs :
  let b := foldl (λ b p, bbox_step w d p.1 p.2 b)
                 (mkBox (Z.of_nat w) (Z.of_nat h) (-1) (-1)) cs in
  (∀ y x, (y, x) ∈ cs → opaque w d x y = true →
     minX b ≤ Z.of_nat x ≤ maxX b ∧ minY b ≤ Z.of_nat y ≤ maxY b)
  ∧ (minX b = Z.of_nat w
     ∨ ∃ y x, (y, x) ∈ cs ∧ opaque w d x y = true ∧ minX b = Z.of_nat x)
  ∧ (minY b = Z.of_nat h
     ∨ ∃ y x, (y, x) ∈ cs ∧ opaque w d x y = true ∧ minY b = Z.of_nat y)
  ∧ (maxX b = -1
     ∨ ∃ y x, (y, x) ∈ cs ∧ opaque w d x y = true ∧ maxX b = Z.of_nat x)
  ∧ (maxY b = -1
     ∨ ∃ y x, (y, x) ∈ cs ∧ opaque w d x y = true ∧ maxY b = Z.of_nat y).
Proof.
  induction cs as [|[y0 x0] cs IH] using rev_ind; simpl.
  - split; [intros y x Hin; by apply elem_of_nil in Hin|].
    repeat split; by left.
  - rewrite foldl_app. simpl in *.
    set (b0 := foldl _ _ cs) in *.
    destruct IH as (Hin & HminX & HminY & HmaxX & HmaxY).
    assert (Hext : ∀ (P : nat → nat → Prop),
               (∃ y x, (y, x) ∈ cs ∧ P y x) →
               ∃ y x, (y, x) ∈ cs ++ [(y0, x0)] ∧ P y x).
    { intros P (y & x & Hc & HP). exists y, x. split; [|done].
      apply elem_of_app. by left. }
    unfold bbox_step. destruct (opaque w d x0 y0) eqn:Hop; simpl.
    + assert (Hnew : (y0, x0) ∈ cs ++ [(y0, x0)])
        by (apply elem_of_app; right; apply list_elem_of_singleton; done).
      split; [|split; [|split; [|split]]].
      * intros y x Hc Ho. apply elem_of_app in Hc as [Hc|Hc].
        -- specialize (Hin y x Hc Ho). repeat case_bool_decide; lia.
        -- apply list_elem_of_singleton in Hc as [= -> ->].
           repeat case_bool_decide; lia.
      * case_bool_decide.
        -- right. by exists y0, x0.
        -- destruct HminX as [?|Hex]; [by left|right].
           apply (Hext (λ y x, opaque w d x y = true ∧ minX b0 = Z.of_nat x) Hex).
      * case_bool_decide.
        -- right. by exists y0, x0.
        -- destruct HminY as [?|Hex]; [by left|right].
           apply (Hext (λ y x, opaque w d x y = true ∧ minY b0 = Z.of_nat y) Hex).
      * case_bool_decide.
        -- right. by exists y0, x0.
        -- destruct HmaxX as [?|Hex]; [by left|right].
           apply (Hext (λ y x, opaque w d x y = true ∧ maxX b0 = Z.of_nat x) Hex).
      * case_bool_decide.
        -- right. by exists y0, x0.
        -- destruct HmaxY as [?|Hex]; [by left|right].
           apply (Hext (λ y x, opaque w d x y = true ∧ maxY b0 = Z.of_nat y) Hex).
    + split; [|split; [|split; [|split]]].
      * intros y x Hc Ho. apply elem_of_app in Hc as [Hc|Hc]; [by apply Hin|].
        apply list_elem_of_singleton in Hc as [= -> ->]. congruence.
      * destruct HminX as [?|Hex]; [by left|right].
        apply (Hext (λ y x, opaque w d x y = true ∧ minX b0 = Z.of_nat x) Hex).
      * destruct HminY as [?|Hex]; [by left|right].
        apply (Hext (λ y x, opaque w d x y = true ∧ minY b0 = Z.of_nat y) Hex).
      * destruct HmaxX as [?|Hex]; [by left|right].
        apply (Hext (λ y x, opaque w d x y = true ∧ maxX b0 = Z.of_nat x) Hex).
      * destruct HmaxY as [?|Hex]; [by left|right].
        apply (Hext (λ y x, opaque w d x y = true ∧ maxY b0 = Z.of_nat y) Hex).
Qed.

Lemma bbox_pass_spec w h d :
  let b := bbox_pass w h d in
  (∀ x y, (x < w)%nat → (y < h)%nat → opaque w d x y = true →
     minX b ≤ Z.of_nat x ≤ maxX b ∧ minY b ≤ Z.of_nat y ≤ maxY b)
  ∧ (minX b = Z.of_nat w
     ∨ ∃ x y, (x < w)%nat ∧ (y < h)%nat ∧ opaque w d x y = true
              ∧ minX b = Z.of_nat x)
  ∧ (minY b = Z.of_nat h
     ∨ ∃ x y, (x < w)%nat ∧ (y < h)%nat ∧ opaque w d x y = true
              ∧ minY b = Z.of_nat y)
  ∧ (maxX b = -1
     ∨ ∃ x y, (x < w)%nat ∧ (y < h)%nat ∧ opaque w d x y = true
              ∧ maxX b = Z.of_nat x)
  ∧ (maxY b = -1
     ∨ ∃ x y, (x < w)%nat ∧ (y < h)%nat ∧ opaque w d x y = true
              ∧ maxY b = Z.of_nat y).
Proof.
  simpl. rewrite bbox_pass_flat.
  destruct (bbox_fold_spec w h d (pixel_coords w h))
    as (Hin & HminX & HminY & HmaxX & HmaxY).
  assert (Hconv : ∀ (P : nat → nat → Prop),
             (∃ y x, (y, x) ∈ pixel_coords w h ∧ P y x) →
             ∃ x y, (x < w)%nat ∧ (y < h)%nat ∧ P y x).
  { intros P (y & x & Hc & HP). apply elem_of_pixel_coords in Hc as [??].
    by exists x, y. }
  split; [|split; [|split; [|split]]].
  - intros x y Hx Hy Ho. apply Hin; [|done]. by apply elem_of_pixel_coords.
  - destruct HminX as [?|Hex]; [by left|right]. apply (Hconv _ Hex).
  - destruct HminY as [?|Hex]; [by left|right]. apply (Hconv _ Hex).
  - destruct HmaxX as [?|Hex]; [by left|right]. apply (Hconv _ Hex).
  - destruct HmaxY as [?|Hex]; [by left|right]. apply (Hconv _ Hex).
Qed.

(** With no opaque pixel the box is never updated. *)
Lemma bbox_pass_empty w h d :
  (∀ x y, (x < w)%nat → (y < h)%nat → opaque w d x y = false) →
  bbox_pass w h d = mkBox (Z.of_nat w) (Z.of_nat h) (-1) (-1).
Proof.
  intros Hno.
  destruct (bbox_pass_spec w h d) as (_ & HminX & HminY & HmaxX & HmaxY).
  assert (Hnone : ∀ (P : nat → nat → Prop),
             ¬ ∃ x y, (x < w)%nat ∧ (y < h)%nat ∧ opaque w d x y = true ∧ P x y).
  { intros P (x & y & Hx & Hy & Ho & _). rewrite Hno in Ho; done. }
  destruct (bbox_pass w h d) as [a b c e]; simpl in *.
  destruct HminX as [->|Hex]; [|by apply (Hnone (λ x _, a = Z.of_nat x)) in Hex].
  destruct HminY as [->|Hex]; [|by apply (Hnone (λ _ y, b = Z.of_nat y)) in Hex].
  destruct HmaxX as [->|Hex]; [|by apply (Hnone (λ x _, c = Z.of_nat x)) in Hex].
  destruct HmaxY as [->|Hex]; [|by apply (Hnone (λ _ y, e = Z.of_nat y)) in Hex].
  done.
Qed.

(** When the opaque pixels are exactly those of a rectangle inside the
    image, the box is that rectangle. *)
Lemma bbox_pass_rectangle w h d (x0 x1 y0 y1 : nat) :
  (x0 ≤ x1 < w)%nat → (y0 ≤ y1 < h)%nat →
  (∀ x y, (x < w)%nat → (y < h)%nat →
     opaque w d x y = bool_decide ((x0 ≤ x ≤ x1)%nat ∧ (y0 ≤ y ≤ y1)%nat)) →
  bbox_pass w h d
  = mkBox (Z.of_nat x0) (Z.of_nat y0) (Z.of_nat x1) (Z.of_nat y1).
Proof.
  intros Hx Hy Hop.
  destruct (bbox_pass_spec w h d) as (Hin & HminX & HminY & HmaxX & HmaxY).
  assert (Hlo : opaque w d x0 y0 = true).
  { rewrite Hop by lia. apply bool_decide_eq_true. lia. }
  assert (Hhi : opaque w d x1 y1 = true).
  { rewrite Hop by lia. apply bool_decide_eq_true. lia. }
  apply Hin in Hlo; [|lia|lia]. apply Hin in Hhi; [|lia|lia].
  assert (Hrect : ∀ x y, (x < w)%nat → (y < h)%nat → opaque w d x y = true →
                         (x0 ≤ x ≤ x1)%nat ∧ (y0 ≤ y ≤ y1)%nat).
  { intros x y Hxw Hyh Ho. rewrite Hop in Ho by done.
    by apply bool_decide_eq_true in Ho. }
  destruct (bbox_pass w h d) as [a b c e]; simpl in *.
  f_equal.
  - destruct HminX as [->|(x & y & ? & ? & Ho & ->)]; [lia|].
    apply Hrect in Ho; lia.
  - destruct HminY as [->|(x & y & ? & ? & Ho & ->)]; [lia|].
    apply Hrect in Ho; lia.
  - destruct HmaxX as [->|(x & y & ? & ? & Ho & ->)]; [lia|].
    apply Hrect in Ho; lia.
  - destruct HmaxY as [->|(x & y & ? & ? & Ho & ->)]; [lia|].
    apply Hrect in Ho; lia.
Qed.

(** ** Buffers *)

Lemma getImageData_length img data :
  getImageData img = Some data →
  length data = (4 * HTMLImageElement.width img * HTMLImageElement.height img)%nat.
Proof.
  unfold getImageData. case_match; [|done]. intros [= <-].
  apply length_resize.
Qed.

(** The alpha channel of pixel [(x, y)] sits inside the buffer. *)
Lemma alpha_index_lt (w h x y : nat) :
  (x < w)%nat → (y < h)%nat → (4 * (y * w + x) + 3 < 4 * w * h)%nat.
Proof. intros Hx Hy. nia. Qed.

Lemma opaque_alpha_pass w h data x y :
  length data = (4 * w * h)%nat → (x < w)%nat → (y < h)%nat →
  opaque w (alpha_pass data) x y =
    if near (data !! 0%nat) (data !! 1%nat) (data !! 2%nat) data
            (4 * (y * w + x))
    then false else opaque w data x y.
Proof.
  intros Hlen Hx Hy. unfold opaque.
  replace ((y * w + x) * 4 + 3)%nat with (4 * (y * w + x) + 3)%nat by lia.
  rewrite alpha_pass_alpha
    by (rewrite Hlen; by apply alpha_index_lt).
  by case_match.
Qed.

Lemma all_near_lookup bgR bgG bgB data k :
  all_near bgR bgG bgB data = true → (4 * k + 3 < length data)%nat →
  near bgR bgG bgB data (4 * k) = true.
Proof.
  revert data. induction k as [|k IH]; intros data Hall Hlt;
    destruct data as [|r [|g [|b [|a rest]]]]; simpl in Hlt; try lia;
    simpl in Hall; apply andb_true_iff in Hall as [Hhere Hrest].
  - exact Hhere.
  - replace (4 * S k)%nat with (S (S (S (S (4 * k))))) by lia.
    rewrite <- (IH rest Hrest) by lia.
    unfold near, distanceSquared.
    replace (S (S (S (S (4 * k)))) + 1)%nat
      with (S (S (S (S (4 * k + 1))))) by lia.
    replace (S (S (S (S (4 * k)))) + 2)%nat
      with (S (S (S (S (4 * k + 2))))) by lia.
    done.
Qed.

(** Lookup in a concatenation of chunks of equal length. *)
Lemma lookup_bind_chunks {A} (l : list A) (f : A → list Z) (n i c : nat) :
  (∀ a, length (f a) = n) → (c < n)%nat →
  (l ≫= f) !! (i * n + c)%nat = l !! i ≫= λ a, f a !! c.
Proof.
  intros Hlen Hc. revert i. induction l as [|a l IH]; intros i; [done|].
  rewrite bind_cons. destruct i as [|i]; simpl.
  - rewrite lookup_app_l by (rewrite Hlen; lia). done.
  - rewrite lookup_app_r by (rewrite Hlen; lia).
    rewrite Hlen. replace (n + i * n + c - n)%nat with (i * n + c)%nat by lia.
    apply IH.
Qed.

Lemma length_bind_chunks {A} (l : list A) (f : A → list Z) (n : nat) :
  (∀ a, length (f a) = n) → length (l ≫= f) = (length l * n)%nat.
Proof.
  intros Hlen. induction l as [|a l IH]; [done|].
  rewrite bind_cons, length_app, Hlen, IH. done.
Qed.

Lemma length_paint w h f :
  (∀ x y, length (f x y) = 4%nat) → length (paint w h f) = (4 * w * h)%nat.
Proof.
  intros Hf. unfold paint.
  rewrite (length_bind_chunks _ _ (w * 4)%nat).
  - rewrite length_seq. lia.
  - intros y. rewrite (length_bind_chunks _ _ 4%nat) by done.
    by rewrite length_seq.
Qed.

(** Channel [c] of pixel [(x, y)] of a painted buffer. *)
Lemma lookup_paint w h f x y c :
  (∀ x y, length (f x y) = 4%nat) → (x < w)%nat → (y < h)%nat → (c < 4)%nat →
  paint w h f !! (4 * (y * w + x) + c)%nat = f x y !! c.
Proof.
  intros Hf Hx Hy Hc. unfold paint.
  replace (4 * (y * w + x) + c)%nat with (y * (w * 4) + (x * 4 + c))%nat by lia.
  rewrite (lookup_bind_chunks _ _ (w * 4)%nat); [|intros y'|lia].
  - rewrite lookup_seq_lt by done. simpl.
    rewrite (lookup_bind_chunks _ _ 4%nat) by done.
    by rewrite lookup_seq_lt by done.
  - rewrite (length_bind_chunks _ _ 4%nat) by done. by rewrite length_seq.
Qed.

Lemma near_paint bgR bgG bgB w h f x y :
  (∀ x y, length (f x y) = 4%nat) → (x < w)%nat → (y < h)%nat →
  near bgR bgG bgB (paint w h f) (4 * (y * w + x))
  = near bgR bgG bgB (f x y) 0.
Proof.
  intros Hf Hx Hy. unfold near, distanceSquared.
  rewrite <- (Nat.add_0_r (4 * (y * w + x))) at 1.
  rewrite !lookup_paint by (done || lia). done.
Qed.

Lemma getImageData_paint w h f :
  (∀ x y, length (f x y) = 4%nat) → (0 < w)%nat → (0 < h)%nat →
  getImageData (HTMLImageElement.mk w h (paint w h f) true)
  = Some (paint w h f).
Proof.
  intros Hf Hw Hh. unfold getImageData. simpl.
  rewrite !bool_decide_eq_true_2 by done. simpl.
  by rewrite resize_all_alt by (by rewrite length_paint).
Qed.

(** The first pixel of a painted buffer. *)
Lemma paint_first w h f c :
  (∀ x y, length (f x y) = 4%nat) → (0 < w)%nat → (0 < h)%nat → (c < 4)%nat →
  paint w h f !! c = f 0%nat 0%nat !! c.
Proof.
  intros Hf Hw Hh Hc.
  by rewrite <- (lookup_paint w h f 0 0 c) by done.
Qed.

(** ** The matting properties *)


(** A 3 x 2 white image with one red pixel at (1, 1): the five white pixels
    lose their alpha and the bounds are the red pixel. *)
Example matte_3x2 :
  processImageForTransparency
    (Decoded (HTMLImageElement.mk 3 2
                (white_pixel ++ white_pixel ++ white_pixel
                 ++ white_pixel ++ red_pixel ++ white_pixel) true) true)
  = Some (mkResult
            (HTMLImageElement.mk 3 2
               [255; 255; 255; 0; 255; 255; 255; 0; 255; 255; 255; 0;
                255; 255; 255; 0; 255; 0; 0; 255; 255; 255; 255; 0] true)
            (ContentBounds.mk 1 1 1 1)).
Proof. vm_compute. reflexivity. Qed.

(** C3.  For every decoded image the matting function resolves, and the
    content bounds it returns lie inside the image's pixel rectangle:
    [0 <= x], [0 <= y], [x + width <= image width] and
    [y + height <= image height], in the tight case and in the fallback
    case alike. *)
Theorem contentBounds_within_image (img : HTMLImageElement.t) :
  ∃ r, processImageForTransparency (Decoded img true) = Some r
       ∧ 0 ≤ ContentBounds.x (contentBounds r)
       ∧ 0 ≤ ContentBounds.y (contentBounds r)
       ∧ ContentBounds.x (contentBounds r)
           + ContentBounds.width (contentBounds r)
         ≤ Z.of_nat (HTMLImageElement.width img)
       ∧ ContentBounds.y (contentBounds r)
           + ContentBounds.height (contentBounds r)
         ≤ Z.of_nat (HTMLImageElement.height img).
Proof.
  unfold processImageForTransparency.
  destruct (getImageData img) as [data|]; eexists; (split; [reflexivity|]);
    simpl; [|lia].
  set (w := HTMLImageElement.width img). set (h := HTMLImageElement.height img).
  destruct (bbox_pass_spec w h (alpha_pass data))
    as (_ & HminX & HminY & HmaxX & HmaxY).
  unfold bounds_of_box.
  destruct (bbox_pass w h (alpha_pass data)) as [a b c e]; simpl in *.
  assert (0 ≤ a ≤ Z.of_nat w) by (destruct HminX as [->|(x & _ & ? & _ & _ & ->)]; lia).
  assert (0 ≤ b ≤ Z.of_nat h) by (destruct HminY as [->|(_ & y & _ & ? & _ & ->)]; lia).
  assert (-1 ≤ c < Z.of_nat w) by (destruct HmaxX as [->|(x & _ & ? & _ & _ & ->)]; lia).
  assert (-1 ≤ e < Z.of_nat h) by (destruct HmaxY as [->|(_ & y & _ & ? & _ & ->)]; lia).
  destruct (bool_decide (c >= a) && bool_decide (e >= b)); simpl; lia.
Qed.

(** C2.  When every pixel is within the colour-distance threshold of the
    top-left pixel, no opaque pixel survives and the content bounds are the
    full image rectangle [{0, 0, width, height}]. *)
Theorem uniform_background_full_rectangle (img : HTMLImageElement.t) :
  uniform_background img = true →
  ∃ r, processImageForTransparency (Decoded img true) = Some r
       ∧ contentBounds r = full_rectangle img.
Proof.
  unfold uniform_background, processImageForTransparency.
  destruct (getImageData img) as [data|] eqn:Hdata; intros Hall;
    eexists; (split; [reflexivity|]); simpl; [|done].
  set (w := HTMLImageElement.width img). set (h := HTMLImageElement.height img).
  apply getImageData_length in Hdata. fold w h in Hdata.
  rewrite bbox_pass_empty.
  - unfold bounds_of_box, full_rectangle. simpl.
    rewrite bool_decide_eq_false_2 by lia. done.
  - intros x y Hx Hy. rewrite (opaque_alpha_pass w h) by done.
    rewrite all_near_lookup; [done|done|].
    rewrite Hdata. by apply alpha_index_lt.
Qed.

(** The 100 x 100 all-white image mattes to the bounds [{0, 0, 100, 100}]. *)
Lemma uniform_background_full_rectangle_witness :
  uniform_background (all_white 100 100) = true
  ∧ ∃ r, processImageForTransparency (Decoded (all_white 100 100) true) = Some r
         ∧ contentBounds r = ContentBounds.mk 0 0 100 100.
Proof.
  assert (H : uniform_background (all_white 100 100) = true) by (vm_compute; reflexivity).
  split; [exact H|].
  exact (uniform_background_full_rectangle (all_white 100 100) H).
Defined.

(** C1.  For a white image carrying a fully opaque red square on the
    pixels [(20,20)] to [(60,60)], matting sets alpha to [0] on every pixel
    outside the square, leaves the square opaque, and returns the content
    bounds [{20, 20, 41, 41}]. *)
Theorem red_square_matting (w h : nat) :
  (60 < w)%nat → (60 < h)%nat →
  ∃ r, processImageForTransparency (Decoded (red_square_on_white w h) true)
       = Some r
       ∧ contentBounds r = ContentBounds.mk 20 20 41 41
       ∧ (∀ x y, (x < w)%nat → (y < h)%nat → in_square x y = false →
            alpha_at (transparentImage r) x y = Some 0)
       ∧ (∀ x y, in_square x y = true →
            alpha_at (transparentImage r) x y = Some 255).
Proof.
  intros Hw Hh.
  set (f := λ x y : nat, if in_square x y then red_pixel else white_pixel).
  assert (Hf : ∀ x y, length (f x y) = 4%nat).
  { intros x y. unfold f. by destruct (in_square x y). }
  assert (Hbg : ∀ c, (c < 4)%nat → paint w h f !! c = white_pixel !! c).
  { intros c Hc. rewrite paint_first by (done || lia). done. }
  assert (Hnear : ∀ x y, (x < w)%nat → (y < h)%nat →
            near (paint w h f !! 0%nat) (paint w h f !! 1%nat)
                 (paint w h f !! 2%nat) (paint w h f) (4 * (y * w + x))
            = negb (in_square x y)).
  { intros x y Hx Hy. rewrite near_paint by done.
    rewrite !Hbg by lia. unfold f. by destruct (in_square x y). }
  assert (Halpha : ∀ x y, (x < w)%nat → (y < h)%nat →
            alpha_pass (paint w h f) !! ((y * w + x) * 4 + 3)%nat
            = Some (if in_square x y then 255 else 0)).
  { intros x y Hx Hy.
    replace ((y * w + x) * 4 + 3)%nat with (4 * (y * w + x) + 3)%nat by lia.
    rewrite alpha_pass_alpha
      by (rewrite length_paint by done; by apply alpha_index_lt).
    rewrite Hnear by done. rewrite lookup_paint by (done || lia).
    unfold f. by destruct (in_square x y). }
  unfold processImageForTransparency, red_square_on_white. fold f.
  rewrite getImageData_paint by (done || lia).
  eexists. split; [reflexivity|]. simpl. split; [|split].
  - rewrite (bbox_pass_rectangle w h _ 20 60 20 60); [done|lia|lia|].
    intros x y Hx Hy. unfold opaque. rewrite Halpha by done.
    unfold in_square. by case_bool_decide.
  - intros x y Hx Hy Hout. unfold alpha_at. simpl.
    rewrite Halpha by done. by rewrite Hout.
  - intros x y Hin. unfold alpha_at. simpl.
    assert ((x < w)%nat ∧ (y < h)%nat) as [Hx Hy].
    { unfold in_square in Hin. apply bool_decide_eq_true in Hin. lia. }
    rewrite Halpha by done. by rewrite Hin.
Qed.

(** The 100 x 100 instance. *)
Lemma red_square_matting_witness :
  ∃ r, processImageForTransparency (Decoded (red_square_on_white 100 100) true)
       = Some r
       ∧ contentBounds r = ContentBounds.mk 20 20 41 41
       ∧ (∀ x y, (x < 100)%nat → (y < 100)%nat → in_square x y = false →
            alpha_at (transparentImage r) x y = Some 0)
       ∧ (∀ x y, in_square x y = true →
            alpha_at (transparentImage r) x y = Some 255).
Proof. apply (red_square_matting 100 100); lia. Defined.

(** ** Registry updates by id *)

Lemma patch_by_id_absent sel f prev :
  find_by_id sel prev = None → patch_by_id sel f prev = prev.
Proof.
  unfold find_by_id, patch_by_id. induction prev as [|img prev IH]; [done|].
  simpl. destruct (id_is sel img); [done|].
  intros Hnone. f_equal. by apply IH.
Qed.

Lemma remove_by_id_absent sel prev :
  find_by_id sel prev = None → remove_by_id sel prev = prev.
Proof.
  unfold find_by_id, remove_by_id. induction prev as [|img prev IH]; [done|].
  simpl. destruct (id_is sel img); [done|].
  intros Hnone. simpl. f_equal. by apply IH.
Qed.

Lemma find_by_id_remove sel prev :
  find_by_id sel (remove_by_id sel prev) = None.
Proof.
  unfold find_by_id, remove_by_id. induction prev as [|img prev IH]; [done|].
  simpl. destruct (id_is sel img) eqn:Hid; simpl; [done|].
  by rewrite Hid.
Qed.

Lemma settle_fulfilled patch id startTime g prev url r s :
  generation_try g = Fulfilled (url, r, s) →
  settle patch id startTime g prev
  = patch_by_id (Some id) (patch url r s startTime (endTime g)) prev.
Proof. unfold settle. by intros ->. Qed.

Lemma settle_absent patch id startTime g prev :
  find_by_id (Some id) prev = None → settle patch id startTime g prev = prev.
Proof.
  intros Habs. unfold settle.
  destruct (generation_try g) as [[[url r] s]|].
  - by apply patch_by_id_absent.
  - by apply remove_by_id_absent.
Qed.

(** ** Patches that keep the id *)

Lemma find_by_id_patch sel f imgs :
  (∀ img, id_is sel (f img) = id_is sel img) →
  find_by_id sel (patch_by_id sel f imgs) = f <$> find_by_id sel imgs.
Proof.
  intros Hid. unfold find_by_id, patch_by_id.
  induction imgs as [|img imgs IH]; [done|].
  simpl. destruct (id_is sel img) eqn:Himg.
  - by rewrite Hid, Himg.
  - by rewrite Himg.
Qed.

Lemma patch_by_id_twice sel f g imgs :
  (∀ img, id_is sel (f img) = id_is sel img) →
  patch_by_id sel g (patch_by_id sel f imgs)
  = patch_by_id sel (λ img, g (f img)) imgs.
Proof.
  intros Hid. unfold patch_by_id. rewrite <- list_fmap_compose.
  apply list_fmap_ext. intros _ img _. simpl.
  destruct (id_is sel img) eqn:Himg.
  - by rewrite Hid, Himg.
  - by rewrite Himg.
Qed.



(** ** Generation outcomes *)

(** C7.  When the sprite [id] is no longer in the registry, the settlement
    of a generation for [id] leaves the registry as it is: nothing is
    patched, nothing is inserted. *)
Theorem completion_for_deleted_sprite_is_noop
    (id : nat) (startTime : Z) (g : Generation) (prev : list ProcessedImage.t) :
  find_by_id (Some id) prev = None →
  generateFromImage_settle id startTime g prev = prev
  ∧ generateFromText_settle id startTime g prev = prev.
Proof. intros Habs. split; by apply settle_absent. Qed.

(** The castle sprite is deleted while its generation is in flight; the
    completion that arrives afterwards changes nothing. *)
Lemma completion_for_deleted_sprite_is_noop_witness :
  let prev := remove_by_id (Some 0%nat) (images castle_submitted) in
  let g := successful_generation image_400x300 [] 5000 in
  find_by_id (Some 0%nat) prev = None
  ∧ generateFromImage_settle 0 0 g prev = prev
  ∧ generateFromText_settle 0 0 g prev = prev.
Proof.
  assert (H : find_by_id (Some 0%nat)
                (remove_by_id (Some 0%nat) (images castle_submitted)) = None)
    by (vm_compute; reflexivity).
  split; [exact H|].
  exact (completion_for_deleted_sprite_is_noop 0 0
           (successful_generation image_400x300 [] 5000) _ H).
Defined.

(** Whatever was removed by [prev.filter(img => img.id !== id)] stays
    removed when the generation settles. *)
Lemma settle_after_remove patch id startTime g prev :
  settle patch id startTime g (remove_by_id (Some id) prev)
  = remove_by_id (Some id) prev.
Proof. apply settle_absent, find_by_id_remove. Qed.

(** C6, as the code has it.  A rejected suggestion call leaves the [try]
    block like any other failure: the [catch] block removes the sprite from
    the registry. *)
Theorem suggestion_failure_removes_sprite
    (id : nat) (startTime : Z) (g : Generation) (prev : list ProcessedImage.t) :
  suggestions g = Rejected →
  generateFromImage_settle id startTime g prev = remove_by_id (Some id) prev
  ∧ generateFromText_settle id startTime g prev = remove_by_id (Some id) prev.
Proof.
  intros Hs.
  assert (Htry : generation_try g = Rejected).
  { unfold generation_try, mbind, Awaited_bind. rewrite Hs.
    by repeat case_match. }
  unfold generateFromImage_settle, generateFromText_settle, settle.
  by rewrite Htry.
Qed.

Lemma suggestion_failure_removes_sprite_witness :
  let g := suggestion_failure image_400x300 5000 in
  suggestions g = Rejected
  ∧ generateFromImage_settle 0 0 g (images castle_submitted) = []
  ∧ generateFromText_settle 0 0 g (images castle_submitted) = [].
Proof.
  split; [reflexivity|].
  exact (suggestion_failure_removes_sprite 0 0
           (suggestion_failure image_400x300 5000) (images castle_submitted)
           eq_refl).
Defined.

(** C6, as stated, fails: the image call succeeds, the suggestion call is
    rejected, and the sprite that was in the registry is gone instead of
    being ready with an empty suggestion list. *)
Lemma suggestion_failure_counterexample :
  let g := suggestion_failure image_400x300 5000 in
  let prev := images castle_submitted in
  imageUrl g = Fulfilled (Some "https://cdn.example/result.png"%string)
  ∧ suggestions g = Rejected
  ∧ (ProcessedImage.id <$> prev) = [0%nat]
  ∧ generateFromText_settle 0 0 g prev = []
  ∧ ¬ (∃ img, img ∈ generateFromText_settle 0 0 g prev
              ∧ ProcessedImage.id img = 0%nat
              ∧ ProcessedImage.isGenerating img = false
              ∧ ProcessedImage.remixSuggestions img = Some []).
Proof.
  assert (Hgone : generateFromText_settle 0 0
            (suggestion_failure image_400x300 5000) (images castle_submitted)
          = []) by (vm_compute; reflexivity).
  cbv zeta. split; [reflexivity|]. split; [reflexivity|].
  split; [by vm_compute|]. split; [exact Hgone|].
  intros (img & Hin & _). rewrite Hgone in Hin. by apply elem_of_nil in Hin.
Qed.

(** When every awaited call is fulfilled the sprite is patched with the
    suggestions that were returned. *)
Lemma suggestions_stored url r s startTime endTime_ img :
  ProcessedImage.remixSuggestions
    (image_completion_patch url r s startTime endTime_ img) = Some s
  ∧ ProcessedImage.remixSuggestions
      (text_completion_patch url r s startTime endTime_ img) = Some s.
Proof. by destruct img. Qed.






(** The settlement of a fulfilled text generation applies the completion
    patch to the sprite [id]. *)
Lemma generateFromText_settle_fulfilled id startTime g prev url r s :
  generation_try g = Fulfilled (url, r, s) →
  generateFromText_settle id startTime g prev
  = patch_by_id (Some id)
      (text_completion_patch url r s startTime (endTime g)) prev.
Proof. apply settle_fulfilled. Qed.

(** The castle scenario on a 1920 x 1080 canvas: the placeholder is the
    250 x 250 square at (835, 415); the finished sprite is 375 x 281.25 at
    (772.5, 399.375); both are centred on (960, 540). *)
Example castle_scenario :
  geometry <$> images castle_submitted
  = [(835 # 1, 415 # 1, 250 # 1, 250 # 1, true)]
  ∧ geometry <$> images castle_ready
    = [(1545 # 2, 3195 # 8, 375 # 1, 1125 # 4, false)].
Proof. split; vm_compute; reflexivity. Qed.

(** The same numbers in binary64: every operation of the scenario is
    exact. *)
Example castle_scenario_binary64 :
  Binary64.newHeight 400 300 = 281.25%float
  ∧ Binary64.recentre 835 250 375 = 772.5%float
  ∧ Binary64.recentre 415 250 281.25 = 399.375%float
  ∧ PrimFloat.add 772.5 (PrimFloat.div 375 2) = 960%float
  ∧ PrimFloat.add 399.375 (PrimFloat.div 281.25 2) = 540%float.
Proof. repeat split; vm_compute; reflexivity. Qed.

(** ** The guard of the selected-sprite actions *)

Lemma isActionDisabled_false st :
  isActionDisabled st = false →
  ∃ img, find_by_id (selectedImageId st) (images st) = Some img
         ∧ ProcessedImage.isGenerating img = false.
Proof.
  unfold isActionDisabled, selectedImage.
  destruct (selectedImageId st) as [i|]; [|done].
  destruct (find_by_id (Some i) (images st)) as [img|]; [|done].
  intros Hgen. by exists img.
Qed.

(** While the guard holds the slider is not rendered. *)
Lemma slider_not_rendered st : isActionDisabled st = true → slider st = None.
Proof.
  unfold isActionDisabled, slider.
  destruct (selectedImage st) as [img|]; [|done]. by intros ->.
Qed.

(** While it does not hold, a change of the slider is a call of
    [handleScaleChange] on the selected sprite with the chosen entry of
    [SCALE_OPTIONS]. *)
Lemma slider_rendered st scaleIndex newScale :
  isActionDisabled st = false →
  SCALE_OPTIONS !! scaleIndex = Some newScale →
  ∃ sel, selectedImageId st = Some sel
         ∧ dispatch (Scale scaleIndex) st = handleScaleChange sel newScale st.
Proof.
  intros Hen Hscale. cbn [dispatch]. unfold slider, isActionDisabled in *.
  unfold selectedImage in *.
  destruct (selectedImageId st) as [sel|]; [|done]. exists sel.
  destruct (find_by_id (Some sel) (images st)) as [img|] eqn:Hfind; [|done].
  rewrite Hen, Hscale. split; [done|].
  apply List.find_some in Hfind as [_ Hid].
  by apply bool_decide_eq_true in Hid as ->.
Qed.

Example slider_on_castle :
  ProcessedImage.scale
    <$> images (dispatch (Scale 3) castle_selected) = [Some (Q2Qc 2)].
Proof. vm_compute. reflexivity. Qed.

(** C5, amended.  While no sprite is selected or the selected sprite is
    generating, each of the actions regenerate, flip, duplicate, delete,
    remix and scale leaves the state, and so the registry, as it was.  The
    first five handlers return on [isActionDisabled]; the scale slider,
    the only caller of [handleScaleChange], is not rendered. *)
Theorem disabled_actions_frame (a : Action) (st : AppState) :
  isActionDisabled st = true →
  dispatch a st = st ∧ images (dispatch a st) = images st ∧ slider st = None.
Proof.
  intros Hdis.
  assert (Hframe : dispatch a st = st).
  { destruct a; cbn [dispatch];
      unfold handleRegenerateSelected, handleFlipSelected,
        handleDuplicateSelected, handleDeleteSelected, handleRemixSubmit;
      rewrite ?Hdis; try done.
    by rewrite (slider_not_rendered st Hdis). }
  split; [exact Hframe|]. split; [by rewrite Hframe|].
  by apply slider_not_rendered.
Qed.

Lemma disabled_actions_frame_witness :
  let generating := handleInteractionStart (Zc 960) (Zc 540) castle_submitted in
  isActionDisabled generating = true
  ∧ dispatch (Scale 3) generating = generating
  ∧ images (dispatch (Scale 3) generating) = images generating
  ∧ slider generating = None.
Proof.
  cbv zeta. split; [vm_compute; reflexivity|].
  apply (disabled_actions_frame (Scale 3)). vm_compute. reflexivity.
Defined.

(** C5 as it was worded, with the guard inside every handler, fails on
    [handleScaleChange].  With the castle sprite still generating and
    selected by a press, and again with a finished sprite and no selection,
    the guard holds and a call of the handler nevertheless rewrites the
    sprite's [scale]: the handler reads neither the selection nor
    [isGenerating]. *)
Lemma scale_handler_counterexample :
  let generating := handleInteractionStart (Zc 960) (Zc 540) castle_submitted in
  let unselected := castle_ready in
  isActionDisabled generating = true
  ∧ ProcessedImage.scale <$> images generating = [None]
  ∧ ProcessedImage.scale
      <$> images (handleScaleChange 0 (Q2Qc 2) generating) = [Some (Q2Qc 2)]
  ∧ isActionDisabled unselected = true
  ∧ ProcessedImage.scale <$> images unselected = [Some (Q2Qc 1)]
  ∧ ProcessedImage.scale
      <$> images (handleScaleChange 0 (Q2Qc 2) unselected) = [Some (Q2Qc 2)].
Proof. repeat split; vm_compute; reflexivity. Qed.

(** ** Flip *)

Lemma id_is_flip sel img : id_is sel (flip img) = id_is sel img.
Proof. by destruct img, sel. Qed.

Lemma isGenerating_flip img :
  ProcessedImage.isGenerating (flip img) = ProcessedImage.isGenerating img.
Proof. by destruct img. Qed.

(** Two flips set the key to the truth value it stood for. *)
Lemma flip_flip img :
  flip (flip img)
  = ProcessedImage.with_flippedHorizontally
      (Some (truthy (ProcessedImage.flippedHorizontally img))) img.
Proof.
  destruct img as [? ? ? ? ? ? ? ? ? ? ? ? ? fl]. unfold flip. simpl.
  by rewrite negb_involutive.
Qed.



Lemma handleFlipSelected_enabled st :
  isActionDisabled st = false →
  handleFlipSelected st
  = set_images (patch_by_id (selectedImageId st) flip (images st)) st.
Proof.
  intros Hen. unfold handleFlipSelected. rewrite Hen.
  apply isActionDisabled_false in Hen as (img & -> & _). done.
Qed.

Lemma isActionDisabled_flip st :
  isActionDisabled st = false →
  isActionDisabled (handleFlipSelected st) = false.
Proof.
  intros Hen. rewrite handleFlipSelected_enabled by done.
  unfold isActionDisabled, selectedImage, set_images in *. simpl.
  destruct (selectedImageId st) as [i|]; [|done].
  rewrite find_by_id_patch by apply id_is_flip.
  destruct (find_by_id (Some i) (images st)) as [img|]; [|done].
  simpl. by rewrite isGenerating_flip.
Qed.



(** Without the proviso, two flips still restore what the key stands for:
    an absent key comes back as [false]. *)
Lemma flip_twice_normalises (st : AppState) :
  isActionDisabled st = false →
  images (handleFlipSelected (handleFlipSelected st))
  = patch_by_id (selectedImageId st)
      (λ img, ProcessedImage.with_flippedHorizontally
                (Some (truthy (ProcessedImage.flippedHorizontally img))) img)
      (images st).
Proof.
  intros Hen.
  rewrite (handleFlipSelected_enabled (handleFlipSelected st))
    by (by apply isActionDisabled_flip).
  rewrite handleFlipSelected_enabled by done.
  unfold set_images. simpl.
  rewrite patch_by_id_twice by apply id_is_flip.
  unfold patch_by_id. apply list_fmap_ext. intros _ img _. simpl.
  by rewrite flip_flip.
Qed.


(** ** Scale *)





(** The sprite of the castle scenario at scales 1 and 2: the on-screen
    rectangle keeps its corner (772.5, 399.375) and doubles its extent. *)
Example castle_scaled :
  (λ img, (this (ProcessedImage.x img), this (ProcessedImage.y img),
           this (scaledWidth img), this (scaledHeight img)))
    <$> images castle_ready
  = [(1545 # 2, 3195 # 8, 375 # 1, 1125 # 4)]
  ∧ (λ img, (this (ProcessedImage.x img), this (ProcessedImage.y img),
             this (scaledWidth img), this (scaledHeight img)))
      <$> images (handleScaleChange 0 (Q2Qc 2) castle_ready)
    = [(1545 # 2, 3195 # 8, 750 # 1, 1125 # 2)].
Proof. split; vm_compute; reflexivity. Qed.

(** ** Flip and the hit test *)

(** The hit test does not read [flippedHorizontally]. *)
Lemma hits_ignores_flip x y v img :
  hits x y (ProcessedImage.with_flippedHorizontally v img) = hits x y img.
Proof. by destruct img. Qed.

Lemma getImageAtPosition_ignores_flip imgs x y v :
  ProcessedImage.id
    <$> getImageAtPosition
          (ProcessedImage.with_flippedHorizontally v <$> imgs) x y
  = ProcessedImage.id <$> getImageAtPosition imgs x y.
Proof.
  unfold getImageAtPosition. rewrite <- fmap_reverse.
  induction (reverse imgs) as [|img l IH]; [done|].
  rewrite fmap_cons. simpl. rewrite hits_ignores_flip.
  destruct (hits x y img); [by destruct img|exact IH].
Qed.

(** C4 fails on the code.  A 100 x 100 sprite at the origin whose content
    is the 20-pixel column at its left edge: unflipped, the render paints
    content at (10, 50) and the hit test answers there.  Flipped, the
    render paints the content at the mirrored point (90, 50) and none at
    (10, 50), while the hit test still answers at (10, 50) and misses at
    (90, 50). *)
Theorem flipped_hit_test_not_mirrored :
  let plain := left_column_sprite (Some false) in
  let flipped := left_column_sprite (Some true) in
  let cache := λ _ : nat, None in
  getImageAtPosition [plain] (Zc 10) (Zc 50) = Some plain
  ∧ (λ d, paints_content d left_column_bounds (Zc 10) (Zc 50))
      <$> drawCanvas_image cache plain = Some true
  ∧ (λ d, paints_content d left_column_bounds (Zc 90) (Zc 50))
      <$> drawCanvas_image cache flipped = Some true
  ∧ (λ d, paints_content d left_column_bounds (Zc 10) (Zc 50))
      <$> drawCanvas_image cache flipped = Some false
  ∧ getImageAtPosition [flipped] (Zc 90) (Zc 50) = None
  ∧ getImageAtPosition [flipped] (Zc 10) (Zc 50) = Some flipped.
Proof. repeat split; vm_compute; reflexivity. Qed.
